(** * A shallow embedding of [pest/src/error.rs]: the [Error] value of the
    pest parser, its rule renaming, its message composition and its
    source-anchored rendering ([Display] and [Error::description]). *)

From Stdlib Require Import Arith Lia List Ascii String.
Import ListNotations.
Open Scope list_scope.
Open Scope string_scope.

(** ** Panics

    Every Rust operation that can panic in this file (a checked [usize]
    subtraction, a slice index) is modelled in an option monad: [None] is a
    panic. *)

Definition Panic (A : Type) : Type := option A.

Definition ret {A : Type} (a : A) : Panic A := Some a.

Definition bind {A B : Type} (m : Panic A) (k : A -> Panic B) : Panic B :=
  match m with
  | Some a => k a
  | None => None
  end.

Notation "x <- m ;; k" := (bind m (fun x => k))
  (at level 61, m at next level, right associativity).

(** [a - b] on [usize]: it panics on underflow. *)
Definition usize_sub (a b : nat) : Panic nat :=
  if Nat.leb b a then Some (a - b) else None.

(** [rules[i]] on a slice: it panics out of bounds. *)
Definition index {A : Type} (l : list A) (i : nat) : Panic A := nth_error l i.

(** ** Strings *)

Definition nl : string := String (ascii_of_nat 10) EmptyString.

(** A [String] built by pushing [c] [n] times. *)
Fixpoint push_n (n : nat) (c : ascii) : string :=
  match n with
  | 0 => EmptyString
  | S k => String c (push_n k c)
  end.

Definition spaces (n : nat) : string := push_n n " "%char.

Definition digit_char (d : Decimal.uint) : string :=
  match d with
  | Decimal.D0 _ => "0" | Decimal.D1 _ => "1" | Decimal.D2 _ => "2"
  | Decimal.D3 _ => "3" | Decimal.D4 _ => "4" | Decimal.D5 _ => "5"
  | Decimal.D6 _ => "6" | Decimal.D7 _ => "7" | Decimal.D8 _ => "8"
  | Decimal.D9 _ => "9" | Decimal.Nil => ""
  end.

Fixpoint string_of_uint (d : Decimal.uint) : string :=
  match d with
  | Decimal.Nil => ""
  | Decimal.D0 t | Decimal.D1 t | Decimal.D2 t | Decimal.D3 t | Decimal.D4 t
  | Decimal.D5 t | Decimal.D6 t | Decimal.D7 t | Decimal.D8 t | Decimal.D9 t =>
      digit_char d ++ string_of_uint t
  end.

(** [format!("{}", n)] for an unsigned integer. *)
Definition string_of_nat (n : nat) : string := string_of_uint (Nat.to_uint n).

(** ** The external [Position] and [Span] types

    [Position] and [Span] live in other modules of pest; this file only
    uses them through [line_col()], [line_of()], [start()], [end()] and
    [split()]. A position is represented by what those calls return. *)

Record Position : Type := mkPosition {
  pos_offset : nat;      (* byte offset into the input *)
  pos_line : nat;        (* first component of [line_col()] *)
  pos_col : nat;         (* second component of [line_col()] *)
  pos_line_text : string (* [line_of()] *)
}.

Definition line_col (p : Position) : nat * nat := (pos_line p, pos_col p).
Definition line_of (p : Position) : string := pos_line_text p.

Record Span : Type := mkSpan {
  span_start_pos : Position;
  span_end_pos : Position
}.

Definition span_start (s : Span) : nat := pos_offset (span_start_pos s).
Definition span_end (s : Span) : nat := pos_offset (span_end_pos s).
Definition split (s : Span) : Position * Position :=
  (span_start_pos s, span_end_pos s).

(** ** [enum Error<'i, R>] *)

Inductive Error (R : Type) : Type :=
  | ParsingError (positives : list R) (negatives : list R) (pos : Position)
  | CustomErrorPos (message : string) (pos : Position)
  | CustomErrorSpan (message : string) (span : Span).

Arguments ParsingError {R} positives negatives pos.
Arguments CustomErrorPos {R} message pos.
Arguments CustomErrorSpan {R} message span.

Section ErrorFunctions.

Context {R : Type}.

(** [format!("{:?}", r)] of the rule type. *)
Variable debug : R -> string.

(** [fn enumerate(rules: &[R], f: &mut F) -> String]. For [l = 0] the
    subtraction [l - 1] panics in a debug build; in a release build it wraps
    and [rules[l - 1]] panics out of bounds; both are [None] here. *)
Definition enumerate (rules : list R) (f : R -> string) : Panic string :=
  match List.length rules with
  | 1 => r0 <- index rules 0;; ret (f r0)
  | 2 => r0 <- index rules 0;; r1 <- index rules 1;;
         ret (f r0 ++ " or " ++ f r1)
  | l => k <- usize_sub l 1;;
         let separated := String.concat ", " (map f (firstn k rules)) in
         rlast <- index rules k;;
         ret (separated ++ ", or " ++ f rlast)
  end.

Definition is_empty {A : Type} (l : list A) : bool :=
  match l with [] => true | _ => false end.

(** [fn parsing_error_message(positives, negatives, f) -> String] *)
Definition parsing_error_message (positives negatives : list R)
    (f : R -> string) : Panic string :=
  match is_empty negatives, is_empty positives with
  | false, false =>
      a <- enumerate negatives f;; b <- enumerate positives f;;
      ret ("unexpected " ++ a ++ "; expected " ++ b)
  | false, true => a <- enumerate negatives f;; ret ("unexpected " ++ a)
  | true, false => b <- enumerate positives f;; ret ("expected " ++ b)
  | true, true => ret "unknown parsing error"
  end.

(** [Error::renamed_rules(self, f)] *)
Definition renamed_rules (error : Error R) (f : R -> string) : Panic (Error R) :=
  match error with
  | ParsingError positives negatives pos =>
      message <- parsing_error_message positives negatives f;;
      ret (CustomErrorPos message pos)
  | error => ret error
  end.

(** [fn message(error) -> String] *)
Definition message (error : Error R) : Panic string :=
  match error with
  | ParsingError positives negatives _ =>
      parsing_error_message positives negatives debug
  | CustomErrorPos message _ | CustomErrorSpan message _ => ret message
  end.

(** [fn underline(error, offset) -> String]. The loop [for _ in 2..w]
    runs [w - 2] times (an empty range when [w <= 2]). *)
Definition underline (error : Error R) (offset : nat) : Panic string :=
  let u := spaces offset in
  match error with
  | CustomErrorSpan _ span =>
      w <- usize_sub (span_end span) (span_start span);;
      if Nat.ltb 1 w then ret (u ++ "^" ++ push_n (w - 2) "-" ++ "^")
      else ret (u ++ "^")
  | _ => ret (u ++ "^---")
  end.

(** The position chosen at the top of [fn format]. *)
Definition anchor (error : Error R) : Position :=
  match error with
  | ParsingError _ _ pos | CustomErrorPos _ pos => pos
  | CustomErrorSpan _ span => fst (split span)
  end.

(** [fn format(error) -> String], which is also [Display::fmt]. *)
Definition format (error : Error R) : Panic string :=
  let pos := anchor error in
  let '(line, col) := line_col pos in
  let line_str_len := String.length (string_of_nat line) in
  let spacing := spaces line_str_len in
  let result := spacing ++ "--> " ++ string_of_nat line ++ ":"
                ++ string_of_nat col ++ nl in
  let result := result ++ (spacing ++ " |" ++ nl) in
  let result := result ++ (string_of_nat line ++ " | ") in
  let result := result ++ (line_of pos ++ nl) in
  c <- usize_sub col 1;;
  u <- underline error c;;
  let result := result ++ (spacing ++ " | " ++ u ++ nl) in
  let result := result ++ (spacing ++ " |" ++ nl) in
  m <- message error;;
  ret (result ++ (spacing ++ " = " ++ m)).

(** [Error::description(&self)] *)
Definition description (error : Error R) : string :=
  match error with
  | ParsingError _ _ _ => "parsing error"
  | CustomErrorPos message _ | CustomErrorSpan message _ => message
  end.

End ErrorFunctions.


(** ** Sample values: the input ["ab\ncd\nef"] of the unit tests *)

Module Samples.

(** Byte offset 4 of ["ab\ncd\nef"]: line 2, column 2, on the line ["cd"]. *)
Definition pos4 : Position := mkPosition 4 2 2 "cd".

(** Byte offset 3: line 2, column 1. *)
Definition pos3 : Position := mkPosition 3 2 1 "cd".

(** Byte offset 6: line 3, column 1, on the line ["ef"]. *)
Definition pos6 : Position := mkPosition 6 3 1 "ef".

(** The span from offset 3 to offset 6, of width 3. *)
Definition span36 : Span := mkSpan pos3 pos6.

(** The [ParsingError] of the unit test [display_parsing_error_mixed]. *)
Definition mixed_error : Error nat := ParsingError [1; 2; 3] [4; 5; 6] pos4.

(** A [CustomErrorSpan] over [span36]. *)
Definition span_error : Error nat := CustomErrorSpan "error: span" span36.

(** The [CustomErrorPos] of the unit test [display_custom]. *)
Definition custom_error : Error nat := CustomErrorPos "error: big one" pos4.

End Samples.

(** ** Preconditions from the [Position] and [Span] contracts

    [line_col()] is 1-based, so line and column are at least 1, and a span
    has [start() <= end()]. *)

Definition position_ok (p : Position) : Prop := 1 <= pos_line p /\ 1 <= pos_col p.

Definition well_formed {R : Type} (e : Error R) : Prop :=
  match e with
  | ParsingError _ _ pos | CustomErrorPos _ pos => position_ok pos
  | CustomErrorSpan _ span =>
      position_ok (span_start_pos span) /\ position_ok (span_end_pos span) /\
      span_start span <= span_end span
  end.

(** ** Helper lemmas *)

Lemma usize_sub_ok (a b : nat) : b <= a -> usize_sub a b = Some (a - b).
Proof. intro H. unfold usize_sub. apply Nat.leb_le in H. now rewrite H. Qed.

Lemma nth_error_pred_length_last {A : Type} (l : list A) (d : A) :
  l <> [] -> nth_error l (List.length l - 1) = Some (last l d).
Proof.
  intro Hl. rewrite (app_removelast_last d Hl) at 1 2.
  rewrite length_app. simpl. rewrite Nat.add_sub.
  rewrite nth_error_app2 by lia. now rewrite Nat.sub_diag.
Qed.

Lemma string_append_assoc (a b c : string) : (a ++ b) ++ c = a ++ (b ++ c).
Proof. induction a as [| ch a IH]; simpl; [reflexivity | now rewrite IH]. Qed.

Lemma string_length_append (a b : string) :
  String.length (a ++ b) = String.length a + String.length b.
Proof. induction a as [| ch a IH]; simpl; [reflexivity | now rewrite IH]. Qed.

Lemma string_length_push_n (n : nat) (c : ascii) : String.length (push_n n c) = n.
Proof. induction n as [| n IH]; simpl; [reflexivity | now rewrite IH]. Qed.

Lemma well_formed_anchor {R : Type} (e : Error R) :
  well_formed e -> position_ok (anchor e).
Proof. destruct e; simpl; tauto. Qed.

Section Enumerate.

Context {R : Type}.

Lemma enumerate_long (f : R -> string) (a b c : R) (rest : list R) :
  let l := a :: b :: c :: rest in
  enumerate l f =
  Some (String.concat ", " (map f (removelast l)) ++ ", or " ++ f (last l a)).
Proof.
  intro l.
  assert (Hlen : List.length l - 1 = S (S (List.length rest))) by (simpl; lia).
  assert (Hsub : usize_sub (List.length l) 1 = Some (List.length l - 1))
    by (apply usize_sub_ok; simpl; lia).
  change (enumerate l f) with
    (k <- usize_sub (List.length l) 1;;
     let separated := String.concat ", " (map f (firstn k l)) in
     rlast <- index l k;;
     ret (separated ++ ", or " ++ f rlast)).
  assert (Hne : l <> []) by discriminate.
  clearbody l.
  rewrite Hsub. cbv [bind].
  rewrite removelast_firstn_len.
  replace (Nat.pred (List.length l)) with (List.length l - 1) by lia.
  unfold index. rewrite (nth_error_pred_length_last l a Hne).
  reflexivity.
Qed.

Lemma enumerate_nonempty (f : R -> string) (x : R) (xs : list R) :
  exists s, enumerate (x :: xs) f = Some s.
Proof.
  destruct xs as [| y [| z rest]].
  - eexists; reflexivity.
  - eexists; reflexivity.
  - eexists; apply enumerate_long.
Qed.

Lemma parsing_error_message_total (f : R -> string) (positives negatives : list R) :
  exists s, parsing_error_message positives negatives f = Some s.
Proof.
  destruct negatives as [| x xs], positives as [| y ys];
    unfold parsing_error_message; cbn [is_empty].
  - eexists; reflexivity.
  - destruct (enumerate_nonempty f y ys) as [b Hb]. rewrite Hb. eexists; reflexivity.
  - destruct (enumerate_nonempty f x xs) as [a Ha]. rewrite Ha. eexists; reflexivity.
  - destruct (enumerate_nonempty f x xs) as [a Ha].
    destruct (enumerate_nonempty f y ys) as [b Hb].
    rewrite Ha, Hb. eexists; reflexivity.
Qed.

End Enumerate.

(** ** The claims *)

Section Claims.

Context {R : Type}.

(** C4: for a non-empty sequence, [enumerate] renders one item alone, two
    items as ["a or b"] without a comma, and three or more as the renders
    of all but the last joined by [", "] followed by [", or last"]. *)
Theorem enumerate_connectives (f : R -> string) :
  (forall a, enumerate [a] f = Some (f a)) /\
  (forall a b, enumerate [a; b] f = Some (f a ++ " or " ++ f b)) /\
  (forall a b c rest,
     enumerate (a :: b :: c :: rest) f =
     Some (String.concat ", " (map f (removelast (a :: b :: c :: rest)))
           ++ ", or " ++ f (last (a :: b :: c :: rest) a))).
Proof.
  split; [| split].
  - reflexivity.
  - reflexivity.
  - intros a b c rest. apply enumerate_long.
Qed.

(** C3: [parsing_error_message positives negatives f] follows the table on
    (negatives empty?, positives empty?): ["unexpected N; expected P"],
    ["unexpected N"], ["expected P"], ["unknown parsing error"], where N and
    P are what [enumerate] returns on the negatives and the positives. *)
Theorem parsing_error_message_table (f : R -> string) :
  (forall x xs y ys, exists a b,
     enumerate (x :: xs) f = Some a /\ enumerate (y :: ys) f = Some b /\
     parsing_error_message (y :: ys) (x :: xs) f =
     Some ("unexpected " ++ a ++ "; expected " ++ b)) /\
  (forall x xs, exists a,
     enumerate (x :: xs) f = Some a /\
     parsing_error_message [] (x :: xs) f = Some ("unexpected " ++ a)) /\
  (forall y ys, exists b,
     enumerate (y :: ys) f = Some b /\
     parsing_error_message (y :: ys) [] f = Some ("expected " ++ b)) /\
  parsing_error_message [] [] f = Some "unknown parsing error".
Proof.
  split; [| split; [| split]].
  - intros x xs y ys.
    destruct (enumerate_nonempty f x xs) as [a Ha].
    destruct (enumerate_nonempty f y ys) as [b Hb].
    exists a, b. unfold parsing_error_message; cbn [is_empty].
    rewrite Ha, Hb. auto.
  - intros x xs. destruct (enumerate_nonempty f x xs) as [a Ha].
    exists a. unfold parsing_error_message; cbn [is_empty]. rewrite Ha. auto.
  - intros y ys. destruct (enumerate_nonempty f y ys) as [b Hb].
    exists b. unfold parsing_error_message; cbn [is_empty]. rewrite Hb. auto.
  - reflexivity.
Qed.

(** C5: [renamed_rules] turns a [ParsingError] into a [CustomErrorPos]
    whose message is [parsing_error_message positives negatives f] at the
    same position, and returns [CustomErrorPos] and [CustomErrorSpan]
    unchanged. *)
Theorem renamed_rules_spec (f : R -> string) :
  (forall positives negatives pos, exists m,
     parsing_error_message positives negatives f = Some m /\
     renamed_rules (ParsingError positives negatives pos) f =
     Some (CustomErrorPos m pos)) /\
  (forall m pos, renamed_rules (CustomErrorPos m pos) f =
                 Some (CustomErrorPos (R := R) m pos)) /\
  (forall m span, renamed_rules (CustomErrorSpan m span) f =
                  Some (CustomErrorSpan (R := R) m span)).
Proof.
  split; [| split]; [| reflexivity | reflexivity].
  intros positives negatives pos.
  destruct (parsing_error_message_total f positives negatives) as [m Hm].
  exists m. split; [exact Hm |]. simpl. rewrite Hm. reflexivity.
Qed.

(** C10: renaming twice, with any two functions, gives the result of the
    first renaming: it never yields a [ParsingError]. *)
Theorem renamed_rules_idempotent (r : Error R) (f g : R -> string) :
  exists r', renamed_rules r f = Some r' /\ renamed_rules r' g = Some r'.
Proof.
  destruct r as [positives negatives pos | m pos | m span].
  - destruct (parsing_error_message_total f positives negatives) as [m Hm].
    exists (CustomErrorPos m pos). simpl. rewrite Hm. auto.
  - exists (CustomErrorPos m pos). auto.
  - exists (CustomErrorSpan m span). auto.
Qed.

(** C9: [description] is ["parsing error"] on a [ParsingError] and the
    stored message on [CustomErrorPos] and [CustomErrorSpan]. *)
Theorem description_spec :
  (forall positives negatives pos,
     description (ParsingError (R := R) positives negatives pos) = "parsing error") /\
  (forall m pos, description (CustomErrorPos (R := R) m pos) = m) /\
  (forall m span, description (CustomErrorSpan (R := R) m span) = m).
Proof. repeat split. Qed.

(** C8: on [ParsingError] and [CustomErrorPos] the underline, after its
    leading spaces, is the literal ["^---"], whatever the rules, the message
    or the position. *)
Theorem underline_point_marker (offset : nat) :
  (forall positives negatives pos,
     underline (ParsingError (R := R) positives negatives pos) offset =
     Some (spaces offset ++ "^---")) /\
  (forall m pos,
     underline (CustomErrorPos (R := R) m pos) offset =
     Some (spaces offset ++ "^---")).
Proof. split; reflexivity. Qed.

End Claims.

Section Rendering.

Context {R : Type}.
Variable debug : R -> string.

Lemma underline_total (e : Error R) (offset : nat) :
  well_formed e -> exists marker,
    String.get 0 marker = Some "^"%char /\
    underline e offset = Some (spaces offset ++ marker).
Proof.
  intro He. destruct e as [p n pos | m pos | m span]; simpl.
  - exists "^---"; split; reflexivity.
  - exists "^---"; split; reflexivity.
  - destruct He as (_ & _ & Hspan). rewrite usize_sub_ok by exact Hspan.
    cbv [bind]. destruct (Nat.ltb 1 (span_end span - span_start span)).
    + exists ("^" ++ push_n (span_end span - span_start span - 2) "-" ++ "^").
      split; reflexivity.
    + exists "^"; split; reflexivity.
Qed.

Lemma message_total (e : Error R) : exists m, message debug e = Some m.
Proof.
  destruct e as [p n pos | m pos | m span]; simpl.
  - apply parsing_error_message_total.
  - eexists; reflexivity.
  - eexists; reflexivity.
Qed.

Lemma format_rows (e : Error R) :
  well_formed e ->
  let line := pos_line (anchor e) in
  let col := pos_col (anchor e) in
  let gutter := spaces (String.length (string_of_nat line)) in
  exists u m,
    underline e (col - 1) = Some u /\ message debug e = Some m /\
    format debug e =
    Some (String.concat nl
      [gutter ++ "--> " ++ string_of_nat line ++ ":" ++ string_of_nat col;
       gutter ++ " |";
       string_of_nat line ++ " | " ++ line_of (anchor e);
       gutter ++ " | " ++ u;
       gutter ++ " |";
       gutter ++ " = " ++ m]).
Proof.
  intros He line col gutter.
  destruct (well_formed_anchor e He) as [_ Hcol].
  destruct (underline_total e (col - 1) He) as [marker [_ Hu]].
  destruct (message_total e) as [m Hm].
  exists (spaces (col - 1) ++ marker), m.
  split; [exact Hu | split; [exact Hm |]].
  unfold format, line_col. cbv beta zeta iota.
  fold line col. fold gutter.
  rewrite (usize_sub_ok col 1 Hcol). cbv [bind]. rewrite Hu, Hm.
  unfold ret. f_equal. cbn [String.concat].
  repeat rewrite string_append_assoc. reflexivity.
Qed.

(** C2: [format] (the [Display] rendering) is exactly six rows joined by
    single newlines, with no trailing newline: ["G--> line:col"], ["G |"],
    ["line | text"], ["G | underline"], ["G |"], ["G = message"], where
    (line, col) is [line_col()] of the anchor position (the stored [pos] of
    [ParsingError] and [CustomErrorPos], the start boundary of the span of
    [CustomErrorSpan]) and the gutter G is as many spaces as the decimal
    rendering of line has digits, on every row. *)
Theorem format_six_rows :
  (forall (positives negatives : list R) pos,
     anchor (ParsingError positives negatives pos) = pos) /\
  (forall m pos, anchor (CustomErrorPos (R := R) m pos) = pos) /\
  (forall m span, anchor (CustomErrorSpan (R := R) m span) = span_start_pos span) /\
  (forall e : Error R, well_formed e ->
   let line := pos_line (anchor e) in
   let col := pos_col (anchor e) in
   let gutter := spaces (String.length (string_of_nat line)) in
   exists u m,
     underline e (col - 1) = Some u /\ message debug e = Some m /\
     format debug e =
     Some (String.concat nl
       [gutter ++ "--> " ++ string_of_nat line ++ ":" ++ string_of_nat col;
        gutter ++ " |";
        string_of_nat line ++ " | " ++ line_of (anchor e);
        gutter ++ " | " ++ u;
        gutter ++ " |";
        gutter ++ " = " ++ m])).
Proof.
  split; [reflexivity | split; [reflexivity | split; [reflexivity |]]].
  exact format_rows.
Qed.

(** C6 (as amended): [underline e offset] starts with exactly [offset]
    spaces and then its marker, which starts with ["^"]; [format] calls it
    with [col - 1], so the fourth row is the gutter, [" | "], [col - 1]
    spaces and the marker. *)
Theorem underline_offset_spaces (e : Error R) (He : well_formed e) :
  (forall offset, exists marker,
     String.get 0 marker = Some "^"%char /\
     underline e offset = Some (spaces offset ++ marker)) /\
  (let line := pos_line (anchor e) in
   let col := pos_col (anchor e) in
   let gutter := spaces (String.length (string_of_nat line)) in
   exists marker m,
     String.get 0 marker = Some "^"%char /\
     underline e (col - 1) = Some (spaces (col - 1) ++ marker) /\
     format debug e =
     Some (String.concat nl
       [gutter ++ "--> " ++ string_of_nat line ++ ":" ++ string_of_nat col;
        gutter ++ " |";
        string_of_nat line ++ " | " ++ line_of (anchor e);
        gutter ++ " | " ++ spaces (col - 1) ++ marker;
        gutter ++ " |";
        gutter ++ " = " ++ m])).
Proof.
  split.
  - intro offset. exact (underline_total e offset He).
  - intros line col gutter.
    destruct (underline_total e (col - 1) He) as [marker [Hg Hu]].
    destruct (format_rows e He) as [u [m [Hu' [_ Hf]]]].
    fold line col gutter in Hu', Hf.
    rewrite Hu in Hu'. injection Hu' as <-.
    exists marker, m. auto.
Qed.

(** C7: for a [CustomErrorSpan] whose span has width [w = end - start],
    the marker after the [offset] spaces is ["^"], [w - 2] dashes and ["^"]
    when [w > 1], [w] characters in all, and a single ["^"] when
    [w <= 1]. *)
Theorem underline_span_width (m : string) (span : Span) (offset : nat)
    (Hspan : span_start span <= span_end span) :
  let w := span_end span - span_start span in
  (1 < w ->
   underline (CustomErrorSpan (R := R) m span) offset =
   Some (spaces offset ++ ("^" ++ push_n (w - 2) "-" ++ "^")) /\
   String.length ("^" ++ push_n (w - 2) "-" ++ "^") = w) /\
  (w <= 1 ->
   underline (CustomErrorSpan (R := R) m span) offset =
   Some (spaces offset ++ "^")).
Proof.
  intro w. unfold underline. rewrite (usize_sub_ok _ _ Hspan). cbv [bind].
  fold w. split; intro Hw.
  - apply Nat.ltb_lt in Hw as Hb. rewrite Hb. split; [reflexivity |].
    simpl. rewrite string_length_append, string_length_push_n. simpl.
    apply Nat.ltb_lt in Hb. lia.
  - assert (Hb : Nat.ltb 1 w = false) by (apply Nat.ltb_ge; exact Hw).
    rewrite Hb. reflexivity.
Qed.

(** C1: for a record whose positions have line and column at least 1 and
    whose span has [start <= end], rendering, message extraction, underline
    and renaming never panic: [col - 1] and [end - start] do not underflow,
    and [enumerate], which panics on an empty slice, is never reached with
    one. *)
Theorem rendering_total (e : Error R) (He : well_formed e) :
  (exists s, format debug e = Some s) /\
  (exists m, message debug e = Some m) /\
  (forall offset, exists u, underline e offset = Some u) /\
  (forall f, exists r, renamed_rules e f = Some r) /\
  usize_sub (pos_col (anchor e)) 1 = Some (pos_col (anchor e) - 1) /\
  (forall m span, e = CustomErrorSpan m span ->
     usize_sub (span_end span) (span_start span) =
     Some (span_end span - span_start span)) /\
  (forall f : R -> string, enumerate [] f = None) /\
  (forall (f : R -> string) positives negatives,
     exists s, parsing_error_message positives negatives f = Some s).
Proof.
  destruct (well_formed_anchor e He) as [_ Hcol].
  split; [| split; [| split; [| split; [| split; [| split; [| split]]]]]].
  - destruct (format_rows e He) as [u [m [_ [_ Hf]]]]. eexists; exact Hf.
  - apply message_total.
  - intro offset. destruct (underline_total e offset He) as [marker [_ Hu]].
    eexists; exact Hu.
  - intro f. destruct e as [p n pos | m pos | m span].
    + destruct (parsing_error_message_total f p n) as [msg Hmsg].
      exists (CustomErrorPos msg pos). simpl. now rewrite Hmsg.
    + eexists; reflexivity.
    + eexists; reflexivity.
  - apply usize_sub_ok. exact Hcol.
  - intros m span ->. apply usize_sub_ok. apply He.
  - reflexivity.
  - intros f positives negatives. apply parsing_error_message_total.
Qed.

End Rendering.

(** ** Further properties of [error.rs] *)

Lemma string_append_nil (a : string) : a ++ "" = a.
Proof. induction a as [| ch a IH]; simpl; [reflexivity | now rewrite IH]. Qed.

Lemma in_split_last {A : Type} (l : list A) (d x : A) :
  l <> [] -> In x l -> In x (removelast l) \/ x = last l d.
Proof.
  intros Hl Hx. rewrite (app_removelast_last d Hl) in Hx.
  apply in_app_or in Hx. destruct Hx as [Hx | [Hx | []]]; auto.
Qed.

Lemma in_removelast {A : Type} (l : list A) (x : A) :
  In x (removelast l) -> In x l.
Proof.
  intro Hx. destruct l as [| a l]; [contradiction |].
  rewrite (app_removelast_last a (l := a :: l)) by discriminate.
  apply in_or_app. now left.
Qed.

Lemma in_last {A : Type} (l : list A) (d : A) : l <> [] -> In (last l d) l.
Proof.
  intro Hl. rewrite (app_removelast_last d Hl) at 2.
  apply in_or_app. right. now left.
Qed.

Lemma concat_mentions (sep : string) (l : list string) (s : string) :
  In s l -> exists a b, String.concat sep l = a ++ s ++ b.
Proof.
  induction l as [| y ys IH]; intro Hs; [contradiction |].
  destruct Hs as [<- | Hs].
  - destruct ys as [| z zs].
    + exists "", "". simpl. now rewrite string_append_nil.
    + exists "", (sep ++ String.concat sep (z :: zs)). reflexivity.
  - destruct (IH Hs) as (a & b & Hab).
    destruct ys as [| z zs]; [contradiction |].
    exists (y ++ sep ++ a), b.
    change (String.concat sep (y :: z :: zs))
      with (y ++ sep ++ String.concat sep (z :: zs)).
    rewrite Hab. now rewrite !string_append_assoc.
Qed.

(** [format] reads the record only through its anchor, its underline and
    its message. *)
Lemma format_congr {R1 R2 : Type} (d1 : R1 -> string) (d2 : R2 -> string)
    (e1 : Error R1) (e2 : Error R2) :
  anchor e1 = anchor e2 -> underline e1 = underline e2 ->
  message d1 e1 = message d2 e2 -> format d1 e1 = format d2 e2.
Proof. intros Ha Hu Hm. unfold format. rewrite Ha, Hu, Hm. reflexivity. Qed.

Section Extras.

Context {R : Type}.

Lemma enumerate_ext (l : list R) (f g : R -> string) :
  (forall r, In r l -> f r = g r) -> enumerate l f = enumerate l g.
Proof.
  intro Hfg.
  destruct l as [| a [| b [| c rest]]].
  - reflexivity.
  - cbv [enumerate index bind ret]; simpl. f_equal. apply Hfg. now left.
  - cbv [enumerate index bind ret]; simpl. f_equal.
    rewrite (Hfg a), (Hfg b) by (simpl; auto). reflexivity.
  - rewrite !enumerate_long.
    rewrite (map_ext_in f g) by (intros r Hr; apply Hfg, in_removelast, Hr).
    rewrite (Hfg (last _ a)) by (apply in_last; discriminate).
    reflexivity.
Qed.

Lemma enumerate_mentions (l : list R) (f : R -> string) (x : R)
    (Hx : In x l) :
  exists a b, enumerate l f = Some (a ++ f x ++ b).
Proof.
  destruct l as [| y [| z [| w rest]]]; [contradiction | | |].
  - destruct Hx as [<- | []]. exists "", "". simpl.
    now rewrite string_append_nil.
  - destruct Hx as [<- | [<- | []]].
    + exists "", (" or " ++ f z). reflexivity.
    + exists (f y ++ " or "), "". simpl. rewrite string_append_nil.
      now rewrite string_append_assoc.
  - rewrite enumerate_long.
    destruct (in_split_last (y :: z :: w :: rest) y x ltac:(discriminate) Hx)
      as [Hin | ->].
    + destruct (concat_mentions ", " _ (f x) (in_map f _ _ Hin)) as (a & b & Hab).
      rewrite Hab. exists a, (b ++ ", or " ++ f (last (y :: z :: w :: rest) y)).
      now rewrite !string_append_assoc.
    + exists (String.concat ", " (map f (removelast (y :: z :: w :: rest))) ++ ", or "), "".
      rewrite string_append_nil. now rewrite string_append_assoc.
Qed.

Lemma parsing_error_message_mentions (positives negatives : list R)
    (f : R -> string) (x : R) (Hx : In x (positives ++ negatives)) :
  exists a b, parsing_error_message positives negatives f = Some (a ++ f x ++ b).
Proof.
  apply in_app_or in Hx.
  destruct negatives as [| n ns], positives as [| p ps];
    unfold parsing_error_message; cbn [is_empty].
  - destruct Hx as [[] | []].
  - destruct Hx as [Hx | []].
    destruct (enumerate_mentions _ f x Hx) as (a & b & Hab).
    rewrite Hab. exists ("expected " ++ a), b. reflexivity.
  - destruct Hx as [[] | Hx].
    destruct (enumerate_mentions _ f x Hx) as (a & b & Hab).
    rewrite Hab. exists ("unexpected " ++ a), b. reflexivity.
  - destruct (enumerate_nonempty f n ns) as [sn Hn].
    destruct (enumerate_nonempty f p ps) as [sp Hp].
    destruct Hx as [Hx | Hx].
    + destruct (enumerate_mentions _ f x Hx) as (a & b & Hab).
      rewrite Hn, Hab.
      exists ("unexpected " ++ sn ++ "; expected " ++ a), b.
      cbv [bind ret]. now rewrite !string_append_assoc.
    + destruct (enumerate_mentions _ f x Hx) as (a & b & Hab).
      rewrite Hab, Hp.
      exists ("unexpected " ++ a), (b ++ "; expected " ++ sp).
      cbv [bind ret]. now rewrite !string_append_assoc.
Qed.

(** X1: [enumerate] writes the render of every item of its slice into its
    result. *)
Theorem enumerate_mentions_each (l : list R) (f : R -> string) (x : R)
    (Hx : In x l) :
  exists a b, enumerate l f = Some (a ++ f x ++ b).
Proof. exact (enumerate_mentions l f x Hx). Qed.

(** X2: the message built from the rule lists contains the render of every
    expected and every unexpected rule. *)
Theorem parsing_error_message_mentions_each (positives negatives : list R)
    (f : R -> string) (x : R) (Hx : In x (positives ++ negatives)) :
  exists a b, parsing_error_message positives negatives f = Some (a ++ f x ++ b).
Proof. exact (parsing_error_message_mentions positives negatives f x Hx). Qed.

(** X3: [renamed_rules] applies the render function only to the rules of
    the record: two functions that agree on its positives and negatives
    give the same result. *)
Theorem renamed_rules_local (positives negatives : list R) (pos : Position)
    (f g : R -> string)
    (Hfg : forall r, In r (positives ++ negatives) -> f r = g r) :
  renamed_rules (ParsingError positives negatives pos) f =
  renamed_rules (ParsingError positives negatives pos) g.
Proof.
  simpl. unfold parsing_error_message.
  rewrite (enumerate_ext positives f g)
    by (intros r Hr; apply Hfg, in_or_app; now left).
  rewrite (enumerate_ext negatives f g)
    by (intros r Hr; apply Hfg, in_or_app; now right).
  reflexivity.
Qed.

(** X4: renaming keeps the anchor position and the underline of a record,
    so a renamed record is reported at the same place with the same
    marker. *)
Theorem renamed_rules_keeps_anchor_underline (e : Error R) (f : R -> string) :
  exists e', renamed_rules e f = Some e' /\
             anchor e' = anchor e /\ underline e' = underline e.
Proof.
  destruct e as [p n pos | m pos | m span].
  - destruct (parsing_error_message_total f p n) as [m Hm].
    exists (CustomErrorPos m pos). simpl. rewrite Hm. auto.
  - eexists; split; [reflexivity | auto].
  - eexists; split; [reflexivity | auto].
Qed.

(** X5: the message of a record is the [description] of the record
    renamed with the [Debug] rendering. *)
Theorem message_is_renamed_description (debug : R -> string) (e : Error R) :
  message debug e = (e' <- renamed_rules e debug;; ret (description e')).
Proof.
  destruct e as [p n pos | m pos | m span]; simpl; [| reflexivity | reflexivity].
  destruct (parsing_error_message_total debug p n) as [m Hm].
  rewrite Hm. reflexivity.
Qed.

(** X6: renaming with the [Debug] rendering does not change the report:
    [format] gives the same text before and after, whatever rendering the
    renamed record is then formatted with. *)
Theorem format_renamed_debug (debug : R -> string) (g : R -> string) (e : Error R) :
  format debug e = (e' <- renamed_rules e debug;; format g e').
Proof.
  destruct e as [p n pos | m pos | m span].
  - destruct (parsing_error_message_total debug p n) as [m Hm].
    simpl renamed_rules. rewrite Hm. cbv [bind ret].
    apply format_congr; [reflexivity | reflexivity |].
    cbn [message]. rewrite Hm. reflexivity.
  - cbv [bind ret]. simpl renamed_rules.
    apply format_congr; reflexivity.
  - cbv [bind ret]. simpl renamed_rules.
    apply format_congr; reflexivity.
Qed.

End Extras.

Section Extras2.

Context {R : Type}.

Lemma underline_none_iff (e : Error R) (offset : nat) :
  underline e offset = None <->
  exists m span, e = CustomErrorSpan m span /\ span_end span < span_start span.
Proof.
  destruct e as [p n pos | m pos | m span].
  - split; [discriminate | intros (? & ? & H & _); discriminate H].
  - split; [discriminate | intros (? & ? & H & _); discriminate H].
  - unfold underline, usize_sub.
    destruct (Nat.leb (span_start span) (span_end span)) eqn:Hle; cbv [bind].
    + apply Nat.leb_le in Hle. split.
      * destruct (Nat.ltb 1 _); discriminate.
      * intros (m' & sp & Heq & Hlt). injection Heq as _ <-. lia.
    + apply Nat.leb_gt in Hle. split; [intros _; eauto | reflexivity].
Qed.

(** X7: [format] panics exactly when the anchor column is 0 (the
    subtraction [col - 1]) or the record is a [CustomErrorSpan] whose end
    lies before its start (the subtraction [end - start] in
    [underline]). *)
Theorem format_panics_iff (debug : R -> string) (e : Error R) :
  format debug e = None <->
  pos_col (anchor e) = 0 \/
  exists m span, e = CustomErrorSpan m span /\ span_end span < span_start span.
Proof.
  unfold format, line_col. cbv beta zeta iota.
  destruct (pos_col (anchor e)) as [| c] eqn:Hc.
  - split; [intros _; now left | reflexivity].
  - rewrite (usize_sub_ok (S c) 1) by lia. cbv [bind].
    destruct (underline e (S c - 1)) as [u |] eqn:Hu.
    + destruct (message_total debug e) as [ms Hm]. rewrite Hm. split.
      * discriminate.
      * intros [H | H]; [discriminate H |].
        apply (underline_none_iff e (S c - 1)) in H. congruence.
    + split; [intros _; right | reflexivity].
      now apply (underline_none_iff e (S c - 1)).
Qed.

(** X8: the underline is [offset] characters longer than its marker: 4 for
    [ParsingError] and [CustomErrorPos], and for [CustomErrorSpan] the
    span width, at least 1. *)
Theorem underline_length (e : Error R) (offset : nat)
    (Hspan : forall m span, e = CustomErrorSpan m span ->
             span_start span <= span_end span) :
  exists u, underline e offset = Some u /\
    String.length u = offset + match e with
                               | CustomErrorSpan _ span =>
                                   Nat.max 1 (span_end span - span_start span)
                               | _ => 4
                               end.
Proof.
  destruct e as [p n pos | m pos | m span].
  - eexists; split; [reflexivity |].
    rewrite string_length_append. unfold spaces. now rewrite string_length_push_n.
  - eexists; split; [reflexivity |].
    rewrite string_length_append. unfold spaces. now rewrite string_length_push_n.
  - specialize (Hspan m span eq_refl).
    unfold underline. rewrite (usize_sub_ok _ _ Hspan). cbv [bind].
    destruct (Nat.ltb 1 (span_end span - span_start span)) eqn:Hw.
    + eexists; split; [reflexivity |].
      apply Nat.ltb_lt in Hw.
      rewrite !string_length_append. unfold spaces.
      rewrite !string_length_push_n. rewrite Nat.max_r by lia. simpl. lia.
    + eexists; split; [reflexivity |].
      apply Nat.ltb_ge in Hw.
      rewrite string_length_append. unfold spaces.
      rewrite string_length_push_n. rewrite Nat.max_l by lia. simpl. lia.
Qed.

(** X9: the report of a [ParsingError] at a position with line and column
    at least 1 contains the [Debug] rendering of every expected and every
    unexpected rule. *)
Theorem format_mentions_each_rule (debug : R -> string)
    (positives negatives : list R) (pos : Position) (x : R)
    (Hpos : position_ok pos) (Hx : In x (positives ++ negatives)) :
  exists a b, format debug (ParsingError positives negatives pos) =
              Some (a ++ debug x ++ b).
Proof.
  destruct (format_rows debug (ParsingError positives negatives pos) Hpos)
    as (u & m & _ & Hm & Hf).
  cbn [message] in Hm.
  destruct (parsing_error_message_mentions positives negatives debug x Hx)
    as (a & b & Hab).
  rewrite Hab in Hm. injection Hm as <-.
  rewrite Hf.
  match goal with
  | |- exists _ _, Some (String.concat _ [?r1; ?r2; ?r3; ?r4; ?r5; ?g ++ " = " ++ _]) = _ =>
      exists (r1 ++ nl ++ r2 ++ nl ++ r3 ++ nl ++ r4 ++ nl ++ r5 ++ nl ++ g ++ " = " ++ a), b
  end.
  f_equal. cbn [String.concat]. rewrite !string_append_assoc. reflexivity.
Qed.

End Extras2.

(** ** Concrete instances *)

Module Witnesses.

Import Samples.

Lemma rendering_total_witness :
  well_formed span_error /\ exists s, format string_of_nat span_error = Some s.
Proof.
  assert (H : well_formed span_error)
    by (cbv [well_formed span_error position_ok span_start span_end]; simpl; lia).
  split; [exact H |].
  exact (proj1 (rendering_total string_of_nat span_error H)).
Defined.

Lemma format_six_rows_witness :
  well_formed mixed_error /\
  exists u m, underline mixed_error 1 = Some u /\
              message string_of_nat mixed_error = Some m.
Proof.
  assert (H : well_formed mixed_error)
    by (cbv [well_formed mixed_error position_ok]; simpl; lia).
  split; [exact H |].
  destruct (proj2 (proj2 (proj2 (format_six_rows string_of_nat))) mixed_error H)
    as (u & m & Hu & Hm & _).
  exists u, m. split; assumption.
Defined.

Lemma underline_offset_spaces_witness :
  well_formed custom_error /\
  exists marker, String.get 0 marker = Some "^"%char /\
                 underline custom_error 1 = Some (spaces 1 ++ marker).
Proof.
  assert (H : well_formed custom_error)
    by (cbv [well_formed custom_error position_ok]; simpl; lia).
  split; [exact H |].
  exact (proj1 (underline_offset_spaces string_of_nat custom_error H) 1).
Defined.

Lemma underline_span_width_witness :
  span_start span36 <= span_end span36 /\
  underline span_error 2 = Some (spaces 2 ++ ("^" ++ push_n 1 "-" ++ "^")).
Proof.
  assert (H : span_start span36 <= span_end span36) by (vm_compute; lia).
  split; [exact H |].
  exact (proj1 (proj1 (underline_span_width (R := nat) "error: span" span36 2 H)
                  ltac:(vm_compute; lia))).
Defined.

End Witnesses.

(** ** Counterexamples *)

Module Counterexamples.

Import Samples.

(** C6 as first stated: [underline e column] does not start with
    [column - 1] spaces; at [column = 1] it starts with one space, since the
    loop pushes [offset] spaces. *)
Lemma underline_leading_spaces_counterexample :
  ~ (forall (e : Error nat) (column : nat), exists marker,
       String.get 0 marker = Some "^"%char /\
       underline e column = Some (spaces (column - 1) ++ marker)).
Proof.
  intro H. destruct (H custom_error 1) as [marker [Hg Hu]].
  simpl in Hu. injection Hu as Hu. subst marker. discriminate Hg.
Qed.

End Counterexamples.

Module ExtraWitnesses.

Import Samples.

Lemma enumerate_mentions_each_witness :
  In 2 [1; 2; 3] /\
  exists a b, enumerate [1; 2; 3] string_of_nat = Some (a ++ string_of_nat 2 ++ b).
Proof.
  assert (H : In 2 [1; 2; 3]) by (simpl; auto).
  split; [exact H |].
  exact (enumerate_mentions_each [1; 2; 3] string_of_nat 2 H).
Defined.

Lemma parsing_error_message_mentions_each_witness :
  In 5 ([1; 2; 3] ++ [4; 5; 6]) /\
  exists a b, parsing_error_message [1; 2; 3] [4; 5; 6] string_of_nat =
              Some (a ++ string_of_nat 5 ++ b).
Proof.
  assert (H : In 5 ([1; 2; 3] ++ [4; 5; 6])) by (simpl; auto 6).
  split; [exact H |].
  exact (parsing_error_message_mentions_each [1; 2; 3] [4; 5; 6] string_of_nat 5 H).
Defined.

Lemma renamed_rules_local_witness :
  (forall r, In r ([1; 2; 3] ++ [4; 5; 6]) ->
     string_of_nat r = string_of_nat (Nat.modulo r 10)) /\
  renamed_rules (ParsingError [1; 2; 3] [4; 5; 6] pos4) string_of_nat =
  renamed_rules (ParsingError [1; 2; 3] [4; 5; 6] pos4)
    (fun r => string_of_nat (Nat.modulo r 10)).
Proof.
  assert (H : forall r, In r ([1; 2; 3] ++ [4; 5; 6]) ->
                string_of_nat r = string_of_nat (Nat.modulo r 10)).
  { intros r Hr. simpl in Hr.
    repeat (destruct Hr as [<- | Hr]; [reflexivity |]). contradiction. }
  split; [exact H |].
  exact (renamed_rules_local [1; 2; 3] [4; 5; 6] pos4 string_of_nat _ H).
Defined.

Lemma underline_length_witness :
  (forall m span, span_error = CustomErrorSpan m span ->
     span_start span <= span_end span) /\
  exists u, underline span_error 2 = Some u /\ String.length u = 2 + 3.
Proof.
  assert (H : forall m span, span_error = CustomErrorSpan m span ->
                span_start span <= span_end span).
  { intros m span Heq. injection Heq as _ <-. vm_compute. lia. }
  split; [exact H |].
  exact (underline_length span_error 2 H).
Defined.

Lemma format_mentions_each_rule_witness :
  position_ok pos4 /\ In 5 ([1; 2; 3] ++ [4; 5; 6]) /\
  exists a b, format string_of_nat (ParsingError [1; 2; 3] [4; 5; 6] pos4) =
              Some (a ++ string_of_nat 5 ++ b).
Proof.
  assert (Hp : position_ok pos4) by (vm_compute; lia).
  assert (Hx : In 5 ([1; 2; 3] ++ [4; 5; 6])) by (simpl; auto 6).
  split; [exact Hp | split; [exact Hx |]].
  exact (format_mentions_each_rule string_of_nat [1; 2; 3] [4; 5; 6] pos4 5 Hp Hx).
Defined.

End ExtraWitnesses.

(** ** The unit tests of [error.rs], evaluated *)

Module Tests.

Definition lines (l : list string) : string := String.concat nl l.

Example display_parsing_error_mixed :
  format string_of_nat (ParsingError [1;2;3] [4;5;6] Samples.pos4) =
  Some (lines [" --> 2:2"; "  |"; "2 | cd"; "  |  ^---"; "  |";
               "  = unexpected 4, 5, or 6; expected 1, 2, or 3"]).
Proof. reflexivity. Qed.

Example display_parsing_error_unknown :
  format string_of_nat (ParsingError [] [] Samples.pos4) =
  Some (lines [" --> 2:2"; "  |"; "2 | cd"; "  |  ^---"; "  |";
               "  = unknown parsing error"]).
Proof. reflexivity. Qed.

Example mapped_parsing_error :
  (e <- renamed_rules (ParsingError [1;2;3] [4;5;6] Samples.pos4)
          (fun n => string_of_nat (n + 1));;
   format string_of_nat e) =
  Some (lines [" --> 2:2"; "  |"; "2 | cd"; "  |  ^---"; "  |";
               "  = unexpected 5, 6, or 7; expected 2, 3, or 4"]).
Proof. reflexivity. Qed.

Example display_parsing_error_positives :
  format string_of_nat (ParsingError [1;2] [] Samples.pos4) =
  Some (lines [" --> 2:2"; "  |"; "2 | cd"; "  |  ^---"; "  |";
               "  = expected 1 or 2"]).
Proof. reflexivity. Qed.

Example display_parsing_error_negatives :
  format string_of_nat (ParsingError [] [4;5;6] Samples.pos4) =
  Some (lines [" --> 2:2"; "  |"; "2 | cd"; "  |  ^---"; "  |";
               "  = unexpected 4, 5, or 6"]).
Proof. reflexivity. Qed.

Example display_custom :
  format string_of_nat Samples.custom_error =
  Some (lines [" --> 2:2"; "  |"; "2 | cd"; "  |  ^---"; "  |";
               "  = error: big one"]).
Proof. reflexivity. Qed.

(** A span of width 3 starting at column 1 of line 2. *)
Example display_custom_span :
  format string_of_nat Samples.span_error =
  Some (lines [" --> 2:1"; "  |"; "2 | cd"; "  | ^-^"; "  |";
               "  = error: span"]).
Proof. reflexivity. Qed.

(** A two-digit line number widens the gutter to two spaces. *)
Example display_two_digit_line :
  format string_of_nat (CustomErrorPos (R := nat) "m" (mkPosition 40 12 3 "xyz")) =
  Some (lines ["  --> 12:3"; "   |"; "12 | xyz"; "   |   ^---"; "   |";
               "   = m"]).
Proof. reflexivity. Qed.

(** Column 0 is outside the [line_col()] contract; [col - 1] then panics. *)
Example format_column_zero_panics :
  format string_of_nat (CustomErrorPos (R := nat) "m" (mkPosition 0 1 0 "")) = None.
Proof. reflexivity. Qed.

End Tests.
